(** * Mini-biblioteca API: a shallow embedding of [API_Biblioteca/app.py]

    The service keeps one table of books ([Livro]) and exposes seven Flask
    routes over it.  The embedding has three layers, in the order of the file:

    - the Python values and builtins the handlers use on a decoded JSON body
      ([str], [int], truthiness, [strip], [in], subscription);
    - the table behind the peewee model [Livro]: its columns, the coercions
      of its field classes, the NOT NULL constraints and the key assignment;
    - the route handlers, as functions from a table to a table and an
      outcome, and the response status Flask derives from an outcome.

    Conventions.  A Python [str] is a [string] whose characters are the code
    points 0..255.  A handler receives the body already decoded (the decoding
    is Flask's, and answers 400 by itself when the body is not JSON, which
    includes a numeral of more than 4300 digits).  The tables of the model
    are those whose [ano] cells hold integers: the one statement that can
    store a text there, the UPDATE of [editar], is followed up to that point
    and its result is then marked as outside the model ([StoredText]). *)

From Stdlib Require Import ZArith NArith List String Ascii Bool Lia.
From Stdlib Require Import DecimalString DecimalPos Sorted.
Import ListNotations.

Local Open Scope Z_scope.
Local Open Scope string_scope.

(** ** Exceptions and fallible evaluation *)

Inductive pyexc : Type :=
| IndexError
| KeyError
| TypeError
| ValueError
| OverflowError
| IntegrityError.

Inductive res (A : Type) : Type :=
| Val (a : A)
| Exc (e : pyexc).

Arguments Val {A} a.
Arguments Exc {A} e.

Definition bind {A B : Type} (m : res A) (k : A -> res B) : res B :=
  match m with
  | Val a => k a
  | Exc e => Exc e
  end.

Notation "x <- m ;; k" := (bind m (fun x => k))
  (at level 61, m at next level, right associativity).

(** ** Decoded JSON values *)

(** A float is carried by the three observations the handlers can make of
    it: its text ([str]/[repr]), its truncation ([int], which raises on
    infinities and NaN) and its truth value. *)
Record pyfloat : Type := mkFloat {
  float_repr : string;
  float_trunc : res Z;
  float_nonzero : bool
}.

#[local] Set Warnings "-register-all".

(** [JObj] is a Python [dict] in insertion order; [JArr] a Python [list]. *)
Inductive json : Type :=
| JNull
| JBool (b : bool)
| JInt (n : Z)
| JFloat (f : pyfloat)
| JStr (s : string)
| JArr (xs : list json)
| JObj (kvs : list (string * json)).

(** ** Python builtins *)

Module Py.

Definition code (c : ascii) : N := N_of_ascii c.

Definition between (lo hi n : N) : bool := ((lo <=? n) && (n <=? hi))%N.

(** [str.isspace] on a single character. *)
Definition isspace (c : ascii) : bool :=
  let n := code c in
  between 9 13 n || between 28 31 n || (n =? 32)%N || (n =? 133)%N || (n =? 160)%N.

Fixpoint lstrip (s : string) : string :=
  match s with
  | EmptyString => EmptyString
  | String c s' => if isspace c then lstrip s' else s
  end.

Fixpoint rstrip (s : string) : string :=
  match s with
  | EmptyString => EmptyString
  | String c s' =>
      match rstrip s' with
      | EmptyString => if isspace c then EmptyString else String c EmptyString
      | r => String c r
      end
  end.

(** [s.strip()] *)
Definition strip (s : string) : string := rstrip (lstrip s).

(** [str(n)] for an [int]. *)
Definition str_of_int (n : Z) : string := NilZero.string_of_int (Z.to_int n).

(** [str.isprintable] on a single character. *)
Definition isprintable (c : ascii) : bool :=
  let n := code c in
  between 32 126 n || (between 161 255 n && negb (n =? 173)%N).

Definition squote : ascii := "039"%char.
Definition dquote : ascii := "034"%char.
Definition backslash : ascii := "092"%char.

Definition hex_digit (n : N) : ascii :=
  if (n <? 10)%N then ascii_of_N (48 + n) else ascii_of_N (87 + n).

Fixpoint has_char (q : ascii) (s : string) : bool :=
  match s with
  | EmptyString => false
  | String c s' => Ascii.eqb c q || has_char q s'
  end.

Definition repr_char (q c : ascii) : string :=
  let n := code c in
  if Ascii.eqb c q || Ascii.eqb c backslash then String backslash (String c "")
  else if (n =? 9)%N then String backslash "t"
  else if (n =? 10)%N then String backslash "n"
  else if (n =? 13)%N then String backslash "r"
  else if isprintable c then String c ""
  else String backslash
         (String "x" (String (hex_digit (n / 16)) (String (hex_digit (n mod 16)) ""))).

Fixpoint repr_chars (q : ascii) (s : string) : string :=
  match s with
  | EmptyString => EmptyString
  | String c s' => repr_char q c ++ repr_chars q s'
  end.

(** [repr(s)] for a [str]: single quotes, unless the text has a single quote
    and no double quote. *)
Definition repr_str (s : string) : string :=
  let q := if has_char squote s && negb (has_char dquote s) then dquote else squote in
  String q (repr_chars q s ++ String q "").

Fixpoint join (sep : string) (l : list string) : string :=
  match l with
  | [] => ""
  | [x] => x
  | x :: rest => x ++ sep ++ join sep rest
  end.

(** [repr(v)] *)
Fixpoint repr (v : json) : string :=
  match v with
  | JNull => "None"
  | JBool true => "True"
  | JBool false => "False"
  | JInt n => str_of_int n
  | JFloat f => float_repr f
  | JStr s => repr_str s
  | JArr xs => "[" ++ join ", " (map repr xs) ++ "]"
  | JObj kvs =>
      "{" ++ join ", " (map (fun kv => repr_str (fst kv) ++ ": " ++ repr (snd kv)) kvs) ++ "}"
  end.

(** [str(v)] *)
Definition str (v : json) : string :=
  match v with
  | JStr s => s
  | _ => repr v
  end.

(** [bool(v)] *)
Definition truthy (v : json) : bool :=
  match v with
  | JNull => false
  | JBool b => b
  | JInt n => negb (n =? 0)%Z
  | JFloat f => float_nonzero f
  | JStr s => negb (String.eqb s "")
  | JArr xs => match xs with [] => false | _ => true end
  | JObj kvs => match kvs with [] => false | _ => true end
  end.

(** The blanks [int] accepts around a numeral. *)
Definition int_isspace (c : ascii) : bool :=
  let n := code c in
  between 9 13 n || (n =? 32)%N || (n =? 133)%N || (n =? 160)%N.

Fixpoint int_lstrip (s : string) : string :=
  match s with
  | EmptyString => EmptyString
  | String c s' => if int_isspace c then int_lstrip s' else s
  end.

Fixpoint int_rstrip (s : string) : string :=
  match s with
  | EmptyString => EmptyString
  | String c s' =>
      match int_rstrip s' with
      | EmptyString => if int_isspace c then EmptyString else String c EmptyString
      | r => String c r
      end
  end.

Definition is_digit (c : ascii) : bool := between 48 57 (code c).

(** Digits with single underscores between them; [prev] tells whether the
    previous character was a digit. *)
Fixpoint digits_value (s : string) (acc : Z) (prev : bool) : option Z :=
  match s with
  | EmptyString => if prev then Some acc else None
  | String c s' =>
      if is_digit c then digits_value s' (10 * acc + (Z.of_N (code c) - 48)) true
      else if Ascii.eqb c "_" then (if prev then digits_value s' acc false else None)
      else None
  end.

Fixpoint count_digits (s : string) : Z :=
  match s with
  | EmptyString => 0
  | String c s' => (if is_digit c then 1 else 0) + count_digits s'
  end.

(** The interpreter's limit on the digits of a numeral
    ([sys.get_int_max_str_digits()]). *)
Definition int_max_str_digits : Z := 4300.

(** [int(s)] for a [str], base 10. *)
Definition int_of_str (s : string) : res Z :=
  let body := int_rstrip (int_lstrip s) in
  let '(neg, ds) :=
    match body with
    | String "-" r => (true, r)
    | String "+" r => (false, r)
    | _ => (false, body)
    end in
  match digits_value ds 0 false with
  | Some n =>
      if (int_max_str_digits <? count_digits ds)%Z then Exc ValueError
      else Val (if neg then - n else n)
  | None => Exc ValueError
  end.

(** [int(v)] *)
Definition int (v : json) : res Z :=
  match v with
  | JNull => Exc TypeError
  | JBool b => Val (if b then 1 else 0)
  | JInt n => Val n
  | JFloat f => float_trunc f
  | JStr s => int_of_str s
  | JArr _ => Exc TypeError
  | JObj _ => Exc TypeError
  end.

(** Dictionary lookup by key. *)
Fixpoint lookup (k : string) (kvs : list (string * json)) : option json :=
  match kvs with
  | [] => None
  | (k', v) :: rest => if String.eqb k' k then Some v else lookup k rest
  end.

Fixpoint is_prefix (p s : string) : bool :=
  match p, s with
  | EmptyString, _ => true
  | String a p', String b s' => Ascii.eqb a b && is_prefix p' s'
  | String _ _, EmptyString => false
  end.

Fixpoint is_substring (p s : string) : bool :=
  is_prefix p s ||
  match s with
  | EmptyString => false
  | String _ s' => is_substring p s'
  end.

(** [k in data] for a [str] key [k]: key membership in a [dict], element
    membership in a [list], substring test in a [str]; the other values are
    not containers. *)
Definition contains (k : string) (data : json) : res bool :=
  match data with
  | JObj kvs => Val (match lookup k kvs with Some _ => true | None => false end)
  | JArr xs =>
      Val (existsb (fun x => match x with JStr s => String.eqb s k | _ => false end) xs)
  | JStr s => Val (is_substring k s)
  | _ => Exc TypeError
  end.

(** [all(k in data for k in keys)], left to right, stopping at the first
    missing key. *)
Fixpoint all_in (keys : list string) (data : json) : res bool :=
  match keys with
  | [] => Val true
  | k :: rest =>
      b <- contains k data ;;
      if b then all_in rest data else Val false
  end.

(** [data[k]] for a [str] key [k]. *)
Definition getitem (data : json) (k : string) : res json :=
  match data with
  | JObj kvs =>
      match lookup k kvs with
      | Some v => Val v
      | None => Exc KeyError
      end
  | _ => Exc TypeError
  end.

(** [v or {}] *)
Definition or_dict (v : json) : json := if truthy v then v else JObj [].

End Py.

(** ** The table behind the model [Livro] *)

(** One row of the table.  The columns other than the key are stored cells
    and may hold NULL ([None]); the model declares them NOT NULL, which the
    statements below enforce on what they write. *)
Record Livro : Type := mkLivro {
  id : Z;
  titulo : option string;
  autor : option string;
  ano : option Z;
  disponivel : option bool
}.

(** The rows in retrieval order. *)
Definition table : Type := list Livro.

Definition ids (t : table) : list Z := map id t.

Fixpoint max_id (t : table) : option Z :=
  match t with
  | [] => None
  | r :: t' =>
      match max_id t' with
      | None => Some (id r)
      | Some m => Some (Z.max (id r) m)
      end
  end.

(** [id = AutoField()]: the key of a new row is one more than the largest
    key in the table, and 1 in an empty table. *)
Definition next_id (t : table) : Z :=
  match max_id t with
  | None => 1
  | Some m => m + 1
  end.

(** The integers the engine takes as a parameter of a statement: the signed
    64-bit ones.  Binding another one raises [OverflowError] before the
    statement runs. *)
Definition in_int64 (n : Z) : bool :=
  (-9223372036854775808 <=? n)%Z && (n <=? 9223372036854775807)%Z.

Definition has_id (lid : Z) (r : Livro) : bool := (id r =? lid)%Z.

(** Whether [lid] can be bound in a statement on the table [t].  The keys
    of the rows are cells of the engine, so a key that a row holds is one
    the engine takes. *)
Definition bindable (lid : Z) (t : table) : bool :=
  in_int64 lid || existsb (has_id lid) t.

Definition bind_id (lid : Z) (t : table) : res unit :=
  if bindable lid t then Val tt else Exc OverflowError.

(** [disponivel = BooleanField(default=True)] *)
Definition default_disponivel : bool := true.

(** The table [t] with one more row, under the next key. *)
Definition with_new (titulo autor : string) (ano : Z) (disponivel : bool)
    (t : table) : table :=
  (t ++ [mkLivro (next_id t) (Some titulo) (Some autor) (Some ano) (Some disponivel)])%list.

(** [Livro.create(titulo=.., autor=.., ano=.., disponivel=..)]; the last
    keyword is optional.  The INSERT binds [ano]. *)
Definition Livro_create (titulo autor : string) (ano : Z) (disponivel : option bool)
    (t : table) : res table :=
  let d := match disponivel with Some b => b | None => default_disponivel end in
  if in_int64 ano then Val (with_new titulo autor ano d t) else Exc OverflowError.

Definition rows_with_id (lid : Z) (t : table) : list Livro := filter (has_id lid) t.

(** [Livro.select().where(Livro.id == lid)], run by the first [livro[0]]. *)
Definition Livro_select_id (lid : Z) (t : table) : res (list Livro) :=
  _ <- bind_id lid t ;;
  Val (rows_with_id lid t).

Definition is_disponivel (r : Livro) : bool :=
  match disponivel r with
  | Some true => true
  | _ => false
  end.

(** [Livro.select().where(Livro.disponivel == True)] *)
Definition Livro_select_disponivel (t : table) : list Livro := filter is_disponivel t.

Definition without_id (lid : Z) (t : table) : table :=
  filter (fun r => negb (has_id lid r)) t.

(** [Livro.delete().where(Livro.id == lid).execute()] *)
Definition Livro_delete (lid : Z) (t : table) : res table :=
  _ <- bind_id lid t ;;
  Val (without_id lid t).

(** What a field class sends to the table for a Python value: [None] goes
    through as NULL, anything else through the class's coercion ([str] for
    [CharField], [bool] for [BooleanField]). *)
Definition CharField_db_value (v : json) : res (option string) :=
  match v with
  | JNull => Val None
  | _ => Val (Some (Py.str v))
  end.

Definition BooleanField_db_value (v : json) : res (option bool) :=
  match v with
  | JNull => Val None
  | _ => Val (Some (Py.truthy v))
  end.

(** What [IntegerField] sends for a value that is not [None]: the integer
    [int] gives or, when [int] raises [ValueError], the value as it is. *)
Inductive ano_value : Type :=
| AnoInt (n : Z)
| AnoText (s : string).

(** [IntegerField.db_value]: the coercion is [int] with [ValueError]
    caught.  The only values [int] refuses with [ValueError] are a text that
    is no numeral, which goes through as a text, and the float NaN, which
    the engine takes as NULL; the other exceptions of [int] escape. *)
Definition IntegerField_db_value (v : json) : res (option ano_value) :=
  match v with
  | JNull => Val None
  | JStr s =>
      match Py.int v with
      | Val n => Val (Some (AnoInt n))
      | Exc ValueError => Val (Some (AnoText s))
      | Exc e => Exc e
      end
  | JFloat _ =>
      match Py.int v with
      | Val n => Val (Some (AnoInt n))
      | Exc ValueError => Val None
      | Exc e => Exc e
      end
  | _ => n <- Py.int v ;; Val (Some (AnoInt n))
  end.

(** The SET clause of an UPDATE: per column, [None] when the column is not
    assigned, [Some c] when it is assigned [c]. *)
Record assignments : Type := mkSet {
  set_titulo : option (option string);
  set_autor : option (option string);
  set_ano : option (option ano_value);
  set_disponivel : option (option bool)
}.

Definition assign {A : Type} (new : option (option A)) (old : option A) : option A :=
  match new with
  | Some c => c
  | None => old
  end.

(** The [ano] cell for an assigned integer. *)
Definition ano_cell (new : option (option ano_value)) : option (option Z) :=
  match new with
  | None => None
  | Some None => Some None
  | Some (Some (AnoInt n)) => Some (Some n)
  | Some (Some (AnoText _)) => Some None
  end.

Definition apply_set (u : assignments) (r : Livro) : Livro :=
  mkLivro (id r)
          (assign (set_titulo u) (titulo r))
          (assign (set_autor u) (autor r))
          (assign (ano_cell (set_ano u)) (ano r))
          (assign (set_disponivel u) (disponivel r)).

Definition is_null {A : Type} (new : option (option A)) : bool :=
  match new with
  | Some None => true
  | _ => false
  end.

Definition assigns_null (u : assignments) : bool :=
  is_null (set_titulo u) || is_null (set_autor u) ||
  is_null (set_ano u) || is_null (set_disponivel u).

Definition assigns_text (u : assignments) : bool :=
  match set_ano u with
  | Some (Some (AnoText _)) => true
  | _ => false
  end.

(** Whether the integer assigned to [ano], if any, can be bound. *)
Definition ano_bindable (u : assignments) : bool :=
  match set_ano u with
  | Some (Some (AnoInt n)) => in_int64 n
  | _ => true
  end.

Definition on_id (lid : Z) (f : Livro -> Livro) (t : table) : table :=
  map (fun r => if has_id lid r then f r else r) t.

(** What an UPDATE that went through has done. *)
Inductive effect : Type :=
| Written (t' : table)
| TextStored.

(** [Livro.update(..).where(Livro.id == lid).execute()].  The parameters
    are bound first.  Then, when no row has the key, nothing is written;
    when one has it, the statement fails as a whole, writing nothing, if it
    would put NULL in the row, and otherwise writes the row.  A row written
    with a text for [ano] is not a row of this model: [TextStored]. *)
Definition Livro_update (u : assignments) (lid : Z) (t : table) : res effect :=
  if negb (bindable lid t && ano_bindable u) then Exc OverflowError
  else if negb (existsb (has_id lid) t) then Val (Written t)
  else if assigns_null u then Exc IntegrityError
  else if assigns_text u then Val TextStored
  else Val (Written (on_id lid (apply_set u) t)).

(** ** The routes *)

Inductive retval : Type :=
| RNone
| RText (s : string)
| RJson (j : json).

(** How a view function ends: it returns, calls [abort], or lets an
    exception escape.  [StoredText] is the return of [editar] after an
    UPDATE that stored a text in [ano]. *)
Inductive outcome : Type :=
| Return (v : retval)
| Abort (status : Z) (description : string)
| Raise (e : pyexc)
| StoredText.

(** A handler gives the table after the request and the outcome; with the
    outcome [StoredText] the table after the request is outside the model and
    the table given is the one before. *)
Definition handler : Type := table -> table * outcome.

(** The status of the response: 200 for a returned body, the code given to
    [abort], 500 for an escaped exception and for a view that returns
    [None]. *)
Definition http_status (o : outcome) : Z :=
  match o with
  | Return RNone => 500
  | Return _ => 200
  | Abort status _ => status
  | Raise _ => 500
  | StoredText => 200
  end.

Definition cell {A : Type} (f : A -> json) (c : option A) : json :=
  match c with
  | Some a => f a
  | None => JNull
  end.

(** The [item] built in the loops of the two listing routes. *)
Definition item_livro (livro : Livro) : json :=
  JObj [("titulo", cell JStr (titulo livro));
        ("autor", cell JStr (autor livro));
        ("ano", cell JInt (ano livro));
        ("id", JInt (id livro));
        ("disponivel", cell JBool (disponivel livro))].

(** [init_db]; the two years it inserts are bound without error. *)
Definition init_db (t : table) : table :=
  if (Z.of_nat (List.length t) =? 0)%Z then
    let seeded :=
      t1 <- Livro_create "Estruturas de Dados" "N. Wirth" 1976 (Some true) t ;;
      Livro_create "Clean Code" "R. Martin" 2008 (Some true) t1 in
    match seeded with
    | Val t2 => t2
    | Exc _ => t
    end
  else t.

(** GET /api/livros *)
Definition listar_livros : handler := fun t =>
  let livros := t in
  let lst := map item_livro livros in
  (t, Return (RJson (JArr lst))).

(** GET /api/livros/<int:lid> *)
Definition obter_livro (lid : Z) : handler := fun t =>
  match Livro_select_id lid t with
  | Exc e => (t, Raise e)
  | Val livro =>
      match nth_error livro 0 with
      | None => (t, Raise IndexError)
      | Some l0 =>
          let item := JObj [("titulo", cell JStr (titulo l0));
                            ("autor", cell JStr (autor l0));
                            ("ano", cell JInt (ano l0))] in
          (t, Return (RJson item))
      end
  end.

Definition obrig : list string := ["titulo"; "autor"; "ano"].

Definition campos_obrigatorios : string :=
  "Campos obrigat" ++ String "243"%char "rios: titulo, autor, ano".

(** POST /api/livros *)
Definition criar_livro (body : json) : handler := fun t =>
  let data := Py.or_dict body in
  match Py.all_in obrig data with
  | Exc e => (t, Raise e)
  | Val false => (t, Abort 400 campos_obrigatorios)
  | Val true =>
      let stmt :=
        vt <- Py.getitem data "titulo" ;;
        va <- Py.getitem data "autor" ;;
        vn <- Py.getitem data "ano" ;;
        n <- Py.int vn ;;
        Livro_create (Py.strip (Py.str vt)) (Py.strip (Py.str va)) n None t in
      match stmt with
      | Exc e => (t, Raise e)
      | Val t' => (t', Return (RText "Livro adicionado com sucesso"))
      end
  end.

(** DELETE /api/livros/<int:lid> *)
Definition remover_livro (lid : Z) : handler := fun t =>
  match Livro_delete lid t with
  | Exc e => (t, Raise e)
  | Val t' => (t', Return (RText "Livro removido com sucesso!"))
  end.

(** PATCH /api/livros/<int:lid>/disponibilidade *)
Definition atualizar_disponibilidade (lid : Z) (body : json) : handler := fun t =>
  let data := Py.or_dict body in
  let stmt :=
    vd <- Py.getitem data "disponivel" ;;
    d <- BooleanField_db_value vd ;;
    Livro_update (mkSet None None None (Some d)) lid t in
  match stmt with
  | Exc e => (t, Raise e)
  | Val TextStored => (t, StoredText)
  | Val (Written t') => (t', Return (RText "Livro atualizado com sucesso"))
  end.

(** GET /api/livros/disponiveis: the loop fills [lst] and the function ends
    without a [return]. *)
Definition listar_livros_disponiveis : handler := fun t =>
  let livros := Livro_select_disponivel t in
  let lst := map item_livro livros in
  (t, Return RNone).

(** The list the loop of [listar_livros_disponiveis] has built when the
    function ends. *)
Definition lst_disponiveis (t : table) : list json :=
  map item_livro (Livro_select_disponivel t).

(** PATCH /api/livros/<int:lid>/editar *)
Definition editar (lid : Z) (body : json) : handler := fun t =>
  let data := Py.or_dict body in
  let stmt :=
    vd <- Py.getitem data "disponivel" ;;
    va <- Py.getitem data "autor" ;;
    vt <- Py.getitem data "titulo" ;;
    vn <- Py.getitem data "ano" ;;
    ct <- CharField_db_value vt ;;
    ca <- CharField_db_value va ;;
    cn <- IntegerField_db_value vn ;;
    cd <- BooleanField_db_value vd ;;
    Livro_update (mkSet (Some ct) (Some ca) (Some cn) (Some cd)) lid t in
  match stmt with
  | Exc e => (t, Raise e)
  | Val TextStored => (t, StoredText)
  | Val (Written t') => (t', Return (RText "Livro editado com sucesso"))
  end.

(** ** The service as a transition system *)

Inductive request : Type :=
| GET_livros
| GET_livro (lid : Z)
| POST_livros (body : json)
| DELETE_livro (lid : Z)
| PATCH_disponibilidade (lid : Z) (body : json)
| GET_disponiveis
| PATCH_editar (lid : Z) (body : json).

Definition route (q : request) : handler :=
  match q with
  | GET_livros => listar_livros
  | GET_livro lid => obter_livro lid
  | POST_livros body => criar_livro body
  | DELETE_livro lid => remover_livro lid
  | PATCH_disponibilidade lid body => atualizar_disponibilidade lid body
  | GET_disponiveis => listar_livros_disponiveis
  | PATCH_editar lid body => editar lid body
  end.

(** The tables the service can be in: the database file starts without rows,
    [init_db] runs at every start of the process, and requests are served in
    between. *)
Inductive reachable : table -> Prop :=
| reach_start : reachable (init_db [])
| reach_restart (t : table) : reachable t -> reachable (init_db t)
| reach_request (t : table) (q : request) : reachable t -> reachable (fst (route q t)).

(** The two invariants of the data model. *)
Definition unique_ids (t : table) : Prop := NoDup (ids t).

Definition disponivel_present (t : table) : Prop :=
  forall r, In r t -> disponivel r <> None.

(** The table the service starts from. *)
Definition seed : table := init_db [].



(** What an update of the availability of [lid] may change between a row
    and the row at the same place afterwards: the flag of a row whose key is
    [lid], and nothing else. *)
Definition same_but_disponivel (lid : Z) (r r' : Livro) : Prop :=
  id r' = id r /\ titulo r' = titulo r /\ autor r' = autor r /\ ano r' = ano r /\
  (id r <> lid -> r' = r).


(** The row [r] with its availability flag set. *)
Definition with_disponivel (d : bool) (r : Livro) : Livro :=
  mkLivro (id r) (titulo r) (autor r) (ano r) (Some d).

Definition absent (lid : Z) (t : table) : Prop := forall r, In r t -> id r <> lid.

Definition invariant (t : table) : Prop := unique_ids t /\ disponivel_present t.

(** Request bodies used as examples below. *)
Definition corpo_livro : json :=
  JObj [("titulo", JStr "  Dom Casmurro "); ("autor", JStr "Machado de Assis");
        ("ano", JInt 1899); ("disponivel", JBool false)].

Definition corpo_ano_texto : json :=
  JObj [("titulo", JStr "Dom Casmurro"); ("autor", JStr "Machado de Assis");
        ("ano", JStr "mil oitocentos")].

Definition corpo_sem_ano : json :=
  JObj [("titulo", JStr "Dom Casmurro"); ("autor", JStr "Machado de Assis")].


Definition corpo_sem_disponivel : json := JObj [("available", JBool false)].

Definition corpo_disponivel : json := JObj [("disponivel", JBool false)].

Definition corpo_editar : json :=
  JObj [("titulo", JStr "Codigo Limpo"); ("autor", JStr "Robert Martin");
        ("ano", JInt 2009); ("disponivel", JBool false)].

Definition corpo_editar_nulo : json :=
  JObj [("titulo", JNull); ("autor", JStr "Robert Martin");
        ("ano", JInt 2009); ("disponivel", JBool false)].

(** ** The connection of a request *)

(** The state [db.is_closed()] reads. *)
Inductive conn : Type :=
| Open
| Closed.

Definition is_closed (c : conn) : bool :=
  match c with
  | Closed => true
  | Open => false
  end.

(** [db.connect(reuse_if_open=True)] *)
Definition connect_reuse (c : conn) : conn := Open.

(** [db.close()] *)
Definition close (c : conn) : conn := Closed.

(** [_db_connect], run before every request. *)
Definition _db_connect (c : conn) : conn :=
  if is_closed c then connect_reuse c else c.

(** [_db_close], run after every request, also when the view raised. *)
Definition _db_close (c : conn) : conn :=
  if negb (is_closed c) then close c else c.

(** [init_db] with its connection: it connects, seeds and closes. *)
Definition init_db_conn (s : conn * table) : conn * table :=
  let c := connect_reuse (fst s) in
  (close c, init_db (snd s)).

(** One request: the hook before it, the view, the hook after it.  The
    middle component is the connection the view runs with. *)
Definition serve (q : request) (s : conn * table) : (conn * table) * conn * outcome :=
  let c := _db_connect (fst s) in
  let r := route q (snd s) in
  ((_db_close c, fst r), c, snd r).

Fixpoint serve_all (qs : list request) (s : conn * table) : conn * table :=
  match qs with
  | [] => s
  | q :: qs' => serve_all qs' (fst (fst (serve q s)))
  end.

(** ** Further predicates on tables and bodies *)

Definition cells_present (t : table) : Prop :=
  forall r, In r t ->
    titulo r <> None /\ autor r <> None /\ ano r <> None /\ disponivel r <> None.

Definition increasing_ids (t : table) : Prop :=
  StronglySorted Z.lt (ids t) /\ Forall (fun x => 1 <= x) (ids t).

Definition campos_editar : list string := ["disponivel"; "autor"; "titulo"; "ano"].

Definition is_obj (v : json) : bool :=
  match v with
  | JObj _ => true
  | _ => false
  end.




(** The response of [obter_livro] for the row [r]. *)
Definition item_obter (r : Livro) : json :=
  JObj [("titulo", cell JStr (titulo r));
        ("autor", cell JStr (autor r));
        ("ano", cell JInt (ano r))].




Definition corpo_editar_lista : json :=
  JObj [("titulo", JStr "Codigo Limpo"); ("autor", JStr "Robert Martin");
        ("ano", JArr []); ("disponivel", JBool false)].

(** The least integer above the engine's range. *)
Definition id_grande : Z := 9223372036854775808.


(** * Properties *)

(** ** The builtins *)

Section Builtins.







(** A body that is a non-empty [dict] is the [data] of the handler. *)
Lemma or_dict_obj (kvs : list (string * json)) : Py.or_dict (JObj kvs) = JObj kvs.
Proof.
  destruct kvs; reflexivity.
Qed.

Lemma all_in_obj (kvs : list (string * json)) (keys : list string) :
  Py.all_in keys (JObj kvs) =
  Val (forallb (fun k => match Py.lookup k kvs with Some _ => true | None => false end) keys).
Proof.
  induction keys as [|k keys IH]; simpl; [reflexivity|].
  destruct (Py.lookup k kvs); simpl; [exact IH | reflexivity].
Qed.

End Builtins.

(** ** The table *)

Section Table.

Lemma max_id_upper (t : table) (r : Livro) :
  In r t -> exists m, max_id t = Some m /\ id r <= m.
Proof.
  induction t as [|r0 t IH]; simpl; [contradiction|].
  intros [<- | Hin].
  - destruct (max_id t) as [m|]; eexists; split; try reflexivity; lia.
  - destruct (IH Hin) as [m [-> Hle]].
    eexists; split; [reflexivity | lia].
Qed.

(** The key given to a new row is not in the table. *)
Lemma next_id_fresh (t : table) : ~ In (next_id t) (ids t).
Proof.
  unfold ids. intros Hin.
  apply in_map_iff in Hin as [r [Hid Hr]].
  destruct (max_id_upper t r Hr) as [m [Hm Hle]].
  unfold next_id in Hid. rewrite Hm in Hid. lia.
Qed.

Lemma NoDup_snoc (l : list Z) (x : Z) : NoDup l -> ~ In x l -> NoDup (l ++ [x])%list.
Proof.
  induction l as [|a l IH]; simpl; intros Hnd Hx.
  - constructor; [intros [] | constructor].
  - inversion Hnd as [|a' l' Ha Hl]; subst.
    constructor.
    + rewrite in_app_iff. simpl. intros [H | [H | []]]; [auto | subst; auto].
    + apply IH; auto.
Qed.

Lemma ids_with_new (a b : string) (n : Z) (d : bool) (t : table) :
  ids (with_new a b n d t) = (ids t ++ [next_id t])%list.
Proof.
  unfold with_new, ids. now rewrite map_app.
Qed.

Lemma unique_ids_with_new (a b : string) (n : Z) (d : bool) (t : table) :
  unique_ids t -> unique_ids (with_new a b n d t).
Proof.
  unfold unique_ids. intros H. rewrite ids_with_new.
  apply NoDup_snoc; [exact H | apply next_id_fresh].
Qed.

Lemma disponivel_present_with_new (a b : string) (n : Z) (d : bool) (t : table) :
  disponivel_present t -> disponivel_present (with_new a b n d t).
Proof.
  unfold disponivel_present, with_new. intros H r Hin.
  apply in_app_iff in Hin as [Hin | [<- | []]]; [now apply H | discriminate].
Qed.

(** An INSERT either fails on its parameter and writes nothing, or appends
    the row. *)
Lemma Livro_create_cases (a b : string) (n : Z) (d : option bool) (t : table) :
  (in_int64 n = false /\ Livro_create a b n d t = Exc OverflowError) \/
  (in_int64 n = true /\
   Livro_create a b n d t =
     Val (with_new a b n match d with Some x => x | None => default_disponivel end t)).
Proof.
  unfold Livro_create. destruct (in_int64 n); [right | left]; now split.
Qed.

Lemma has_id_true (lid : Z) (r : Livro) : has_id lid r = true <-> id r = lid.
Proof. unfold has_id. apply Z.eqb_eq. Qed.

Lemma has_id_false (lid : Z) (r : Livro) : has_id lid r = false <-> id r <> lid.
Proof. unfold has_id. apply Z.eqb_neq. Qed.

Lemma In_without_id (lid : Z) (t : table) (r : Livro) :
  In r (without_id lid t) <-> In r t /\ id r <> lid.
Proof.
  unfold without_id. rewrite filter_In, negb_true_iff, has_id_false. reflexivity.
Qed.

Lemma without_id_absent (lid : Z) (t : table) : absent lid t -> without_id lid t = t.
Proof.
  unfold absent, without_id.
  induction t as [|r t IH]; simpl; intros H; [reflexivity|].
  assert (Hr : has_id lid r = false) by (apply has_id_false, H; now left).
  rewrite Hr. simpl. f_equal. apply IH. intros r' Hin. apply H. now right.
Qed.

Lemma absent_without_id (lid : Z) (t : table) : absent lid (without_id lid t).
Proof.
  intros r Hin. now apply In_without_id in Hin.
Qed.

Lemma ids_without_id_incl (lid : Z) (t : table) (x : Z) :
  In x (ids (without_id lid t)) -> In x (ids t).
Proof.
  unfold ids. rewrite !in_map_iff. intros [r [Hx Hr]].
  exists r. split; [exact Hx | now apply In_without_id in Hr].
Qed.

Lemma unique_ids_without_id (lid : Z) (t : table) :
  unique_ids t -> unique_ids (without_id lid t).
Proof.
  unfold unique_ids.
  induction t as [|r t IH]; intros H; [exact H|].
  inversion H as [|x l Hx Hl]; subst.
  change (without_id lid (r :: t))
    with (if negb (has_id lid r) then r :: without_id lid t else without_id lid t).
  destruct (negb (has_id lid r)); [|now apply IH].
  simpl. constructor; [|now apply IH].
  intros Hin. apply Hx. now apply ids_without_id_incl in Hin.
Qed.

Lemma disponivel_present_without_id (lid : Z) (t : table) :
  disponivel_present t -> disponivel_present (without_id lid t).
Proof.
  unfold disponivel_present. intros H r Hin. apply In_without_id in Hin. now apply H.
Qed.

Lemma ids_on_id (lid : Z) (f : Livro -> Livro) (t : table) :
  (forall r, id (f r) = id r) -> ids (on_id lid f t) = ids t.
Proof.
  intros Hf. unfold ids, on_id. rewrite map_map. apply map_ext.
  intros r. destruct (has_id lid r); [apply Hf | reflexivity].
Qed.


Lemma existsb_has_id (lid : Z) (t : table) :
  existsb (has_id lid) t = true <-> exists r, In r t /\ id r = lid.
Proof.
  rewrite existsb_exists. split; intros [r [Hin H]]; exists r;
    (split; [exact Hin | now apply has_id_true]).
Qed.

Lemma existsb_has_id_absent (lid : Z) (t : table) :
  existsb (has_id lid) t = false <-> absent lid t.
Proof.
  split.
  - intros E r Hin Hid.
    assert (existsb (has_id lid) t = true) by (apply existsb_has_id; eauto).
    congruence.
  - intros H. destruct (existsb (has_id lid) t) eqn:E; [|reflexivity].
    apply existsb_has_id in E as [r [Hin Hid]]. now apply H in Hin.
Qed.

(** A key that a row holds can be bound. *)
Lemma bind_id_found (lid : Z) (t : table) :
  (exists r, In r t /\ id r = lid) -> bind_id lid t = Val tt.
Proof.
  intros H. apply existsb_has_id in H.
  unfold bind_id, bindable. now rewrite H, orb_true_r.
Qed.

Lemma bind_id_in_int64 (lid : Z) (t : table) :
  in_int64 lid = true -> bind_id lid t = Val tt.
Proof.
  intros H. unfold bind_id, bindable. now rewrite H.
Qed.

(** A key that cannot be bound is the key of no row. *)
Lemma bind_id_cases (lid : Z) (t : table) :
  bind_id lid t = Val tt \/
  (bind_id lid t = Exc OverflowError /\ in_int64 lid = false /\ absent lid t).
Proof.
  unfold bind_id, bindable.
  destruct (in_int64 lid); [now left|].
  destruct (existsb (has_id lid) t) eqn:E; [now left|].
  right. repeat split. now apply existsb_has_id_absent.
Qed.

Lemma bind_id_absent (lid : Z) (t : table) :
  absent lid t -> bind_id lid t = if in_int64 lid then Val tt else Exc OverflowError.
Proof.
  intros H. apply existsb_has_id_absent in H.
  unfold bind_id, bindable. rewrite H. now destruct (in_int64 lid).
Qed.

(** A DELETE either fails on its parameter, and then no row has the key, or
    removes the rows that have it. *)
Lemma Livro_delete_cases (lid : Z) (t : table) :
  (Livro_delete lid t = Exc OverflowError /\ in_int64 lid = false /\ absent lid t) \/
  Livro_delete lid t = Val (without_id lid t).
Proof.
  unfold Livro_delete.
  destruct (bind_id_cases lid t) as [-> | [-> H]]; [now right | now left].
Qed.

(** What an UPDATE does: it fails on a parameter, writes nothing when no row
    has the key, is refused when it would write NULL, stores a text, or
    rewrites the rows of key [lid] in place with cells that are not NULL. *)
Lemma Livro_update_cases (u : assignments) (lid : Z) (t : table) :
  (Livro_update u lid t = Exc OverflowError /\
   (bindable lid t = false \/ ano_bindable u = false)) \/
  (Livro_update u lid t = Val (Written t) /\
   in_int64 lid = true /\ ano_bindable u = true /\ absent lid t) \/
  (Livro_update u lid t = Exc IntegrityError /\ ano_bindable u = true /\
   assigns_null u = true /\ exists r, In r t /\ id r = lid) \/
  (Livro_update u lid t = Val TextStored /\ ano_bindable u = true /\
   assigns_null u = false /\ assigns_text u = true /\ exists r, In r t /\ id r = lid) \/
  (Livro_update u lid t = Val (Written (on_id lid (apply_set u) t)) /\
   ano_bindable u = true /\ assigns_null u = false /\ assigns_text u = false /\
   exists r, In r t /\ id r = lid).
Proof.
  unfold Livro_update, bindable.
  destruct (ano_bindable u) eqn:Ea.
  2:{ left. rewrite andb_false_r. split; auto. }
  rewrite andb_true_r.
  destruct (existsb (has_id lid) t) eqn:E.
  - rewrite orb_true_r. simpl.
    assert (Hex : exists r, In r t /\ id r = lid) by now apply existsb_has_id.
    destruct (assigns_null u) eqn:N; [right; right; left; auto|].
    destruct (assigns_text u) eqn:T.
    + right. right. right. left. auto.
    + right. right. right. right. auto.
  - rewrite orb_false_r.
    destruct (in_int64 lid) eqn:Ei; simpl.
    + right. left. repeat split; auto. now apply existsb_has_id_absent.
    + left. auto.
Qed.

(** The rows an UPDATE that wrote has left: the old ones, or the old ones
    with the rows of key [lid] assigned cells none of which is NULL. *)
Lemma Livro_update_written (u : assignments) (lid : Z) (t t' : table) :
  Livro_update u lid t = Val (Written t') ->
  t' = t \/
  (t' = on_id lid (apply_set u) t /\ assigns_null u = false /\ assigns_text u = false).
Proof.
  intros H.
  destruct (Livro_update_cases u lid t)
    as [[E _] | [[E _] | [[E _] | [[E _] | [E [_ [N [T _]]]]]]]];
    rewrite E in H; try discriminate.
  - left. congruence.
  - right. injection H as <-. auto.
Qed.

Lemma disponivel_present_on_id (u : assignments) (lid : Z) (t : table) :
  assigns_null u = false ->
  disponivel_present t -> disponivel_present (on_id lid (apply_set u) t).
Proof.
  intros Hnull Hp. unfold disponivel_present, on_id. intros r Hin.
  apply in_map_iff in Hin as [r0 [<- Hin0]].
  destruct (has_id lid r0); [|now apply Hp].
  unfold assigns_null in Hnull.
  repeat (apply orb_false_iff in Hnull as [Hnull ?]).
  simpl. destruct (set_disponivel u) as [[d|]|]; simpl;
    [discriminate | discriminate | now apply Hp].
Qed.

End Table.

(** ** The routes *)

Section Routes.

Lemma rows_with_id_absent (lid : Z) (t : table) : absent lid t -> rows_with_id lid t = [].
Proof.
  unfold absent, rows_with_id.
  induction t as [|r t IH]; simpl; intros H; [reflexivity|].
  assert (Hr : has_id lid r = false) by (apply has_id_false, H; now left).
  rewrite Hr. apply IH. intros r' Hin. apply H. now right.
Qed.

(** On the key of no row, [obter_livro] ends in [IndexError] when the key
    can be bound and in [OverflowError] when it cannot. *)
Lemma obter_livro_absent (lid : Z) (t : table) :
  absent lid t ->
  obter_livro lid t = (t, Raise (if in_int64 lid then IndexError else OverflowError)).
Proof.
  intros H. unfold obter_livro, Livro_select_id.
  rewrite (bind_id_absent lid t H).
  destruct (in_int64 lid); simpl; [|reflexivity].
  now rewrite (rows_with_id_absent lid t H).
Qed.


Lemma criar_livro_int_error (kvs : list (string * json)) (vt va vn : json) (e : pyexc)
    (t : table) :
  Py.lookup "titulo" kvs = Some vt ->
  Py.lookup "autor" kvs = Some va ->
  Py.lookup "ano" kvs = Some vn ->
  Py.int vn = Exc e ->
  criar_livro (JObj kvs) t = (t, Raise e).
Proof.
  intros Ht Ha Hn Hint. unfold criar_livro.
  rewrite or_dict_obj, all_in_obj. unfold obrig, Py.getitem. simpl forallb.
  rewrite Ht, Ha, Hn. simpl. now rewrite Hint.
Qed.

(** An ano outside the engine's range is refused by the INSERT. *)
Lemma criar_livro_overflow (kvs : list (string * json)) (vt va vn : json) (n : Z)
    (t : table) :
  Py.lookup "titulo" kvs = Some vt ->
  Py.lookup "autor" kvs = Some va ->
  Py.lookup "ano" kvs = Some vn ->
  Py.int vn = Val n ->
  in_int64 n = false ->
  criar_livro (JObj kvs) t = (t, Raise OverflowError).
Proof.
  intros Ht Ha Hn Hint Hr. unfold criar_livro.
  rewrite or_dict_obj, all_in_obj. unfold obrig, Py.getitem. simpl forallb.
  rewrite Ht, Ha, Hn. simpl. rewrite Hint. simpl.
  unfold Livro_create. now rewrite Hr.
Qed.

(** Whatever the body, [criar_livro] leaves the table as it is or appends
    one row. *)
Lemma criar_livro_table (body : json) (t : table) :
  fst (criar_livro body t) = t \/
  exists a b n d, fst (criar_livro body t) = with_new a b n d t.
Proof.
  unfold criar_livro. generalize (Py.or_dict body). intros data.
  destruct (Py.all_in obrig data) as [[|]|e]; cbn [fst]; auto.
  destruct (Py.getitem data "titulo") as [vt|e]; cbn [bind fst]; auto.
  destruct (Py.getitem data "autor") as [va|e]; cbn [bind fst]; auto.
  destruct (Py.getitem data "ano") as [vn|e]; cbn [bind fst]; auto.
  destruct (Py.int vn) as [n|e]; cbn [bind fst]; auto.
  destruct (Livro_create_cases (Py.strip (Py.str vt)) (Py.strip (Py.str va)) n None t)
    as [[_ ->] | [_ ->]]; cbn [fst]; [auto | right; now repeat eexists].
Qed.

(** Whatever the id, [remover_livro] leaves the table as it is, and then no
    row has the id, or removes the rows that have it. *)
Lemma remover_livro_cases (lid : Z) (t : table) :
  (remover_livro lid t = (t, Raise OverflowError) /\ in_int64 lid = false /\ absent lid t) \/
  remover_livro lid t = (without_id lid t, Return (RText "Livro removido com sucesso!")).
Proof.
  unfold remover_livro.
  destruct (Livro_delete_cases lid t) as [[-> H] | ->]; [now left | now right].
Qed.

Lemma remover_livro_table (lid : Z) (t : table) :
  fst (remover_livro lid t) = without_id lid t.
Proof.
  destruct (remover_livro_cases lid t) as [[-> [_ H]] | ->]; simpl; [|reflexivity].
  symmetry. now apply without_id_absent.
Qed.

Lemma atualizar_disponibilidade_sem_campo (lid : Z) (kvs : list (string * json)) (t : table) :
  Py.lookup "disponivel" kvs = None ->
  atualizar_disponibilidade lid (JObj kvs) t = (t, Raise KeyError).
Proof.
  intros H. unfold atualizar_disponibilidade.
  rewrite or_dict_obj. unfold Py.getitem. now rewrite H.
Qed.

(** Whatever the body, the two PATCH routes leave the table as it is or
    rewrite the rows of key [lid] with cells none of which is NULL. *)
Lemma atualizar_disponibilidade_table (lid : Z) (body : json) (t : table) :
  fst (atualizar_disponibilidade lid body t) = t \/
  exists u, assigns_null u = false /\ assigns_text u = false /\
            fst (atualizar_disponibilidade lid body t) = on_id lid (apply_set u) t.
Proof.
  unfold atualizar_disponibilidade. generalize (Py.or_dict body). intros data.
  destruct (Py.getitem data "disponivel") as [vd|e]; cbn [bind fst]; auto.
  destruct (BooleanField_db_value vd) as [d|e]; cbn [bind fst]; auto.
  destruct (Livro_update _ lid t) as [[t'|]|e] eqn:E; cbn [bind fst]; auto.
  apply Livro_update_written in E as [-> | [-> [N T]]]; eauto.
Qed.

Lemma editar_table (lid : Z) (body : json) (t : table) :
  fst (editar lid body t) = t \/
  exists u, assigns_null u = false /\ assigns_text u = false /\
            fst (editar lid body t) = on_id lid (apply_set u) t.
Proof.
  unfold editar. generalize (Py.or_dict body). intros data.
  destruct (Py.getitem data "disponivel") as [vd|e]; cbn [bind fst]; auto.
  destruct (Py.getitem data "autor") as [va|e]; cbn [bind fst]; auto.
  destruct (Py.getitem data "titulo") as [vt|e]; cbn [bind fst]; auto.
  destruct (Py.getitem data "ano") as [vn|e]; cbn [bind fst]; auto.
  destruct (CharField_db_value vt) as [ct|e]; cbn [bind fst]; auto.
  destruct (CharField_db_value va) as [ca|e]; cbn [bind fst]; auto.
  destruct (IntegerField_db_value vn) as [cn|e]; cbn [bind fst]; auto.
  destruct (BooleanField_db_value vd) as [cd|e]; cbn [bind fst]; auto.
  destruct (Livro_update _ lid t) as [[t'|]|e] eqn:E; cbn [bind fst]; auto.
  apply Livro_update_written in E as [-> | [-> [N T]]]; eauto.
Qed.

Lemma BooleanField_db_value_not_null (v : json) :
  v <> JNull -> BooleanField_db_value v = Val (Some (Py.truthy v)).
Proof.
  destruct v; intros H; try reflexivity. now elim H.
Qed.

Lemma Forall2_on_id (R : Livro -> Livro -> Prop) (lid : Z) (f : Livro -> Livro)
    (t : table) :
  (forall r, R r r) -> (forall r, id r = lid -> R r (f r)) ->
  Forall2 R t (on_id lid f t).
Proof.
  intros Hrefl Hf. unfold on_id.
  induction t as [|r t IH]; simpl; constructor; [|exact IH].
  destruct (has_id lid r) eqn:E; [apply Hf; now apply has_id_true | apply Hrefl].
Qed.

Lemma Forall2_same (R : Livro -> Livro -> Prop) (t : table) :
  (forall r, R r r) -> Forall2 R t t.
Proof.
  intros Hrefl. induction t; constructor; auto.
Qed.

Lemma same_but_disponivel_refl (lid : Z) (r : Livro) : same_but_disponivel lid r r.
Proof. unfold same_but_disponivel. auto. Qed.

Lemma same_but_disponivel_with (lid : Z) (d : bool) (r : Livro) :
  id r = lid -> same_but_disponivel lid r (with_disponivel d r).
Proof.
  unfold same_but_disponivel, with_disponivel. simpl. intros H.
  repeat split; auto. intros Hne. now elim Hne.
Qed.

(** ** The invariant *)

Lemma invariant_with_new (a b : string) (n : Z) (d : bool) (t : table) :
  invariant t -> invariant (with_new a b n d t).
Proof.
  intros [Hu Hp]. split;
    [now apply unique_ids_with_new | now apply disponivel_present_with_new].
Qed.

Lemma invariant_without_id (lid : Z) (t : table) :
  invariant t -> invariant (without_id lid t).
Proof.
  intros [Hu Hp]. split;
    [now apply unique_ids_without_id | now apply disponivel_present_without_id].
Qed.

Lemma invariant_on_id (u : assignments) (lid : Z) (t : table) :
  assigns_null u = false -> invariant t -> invariant (on_id lid (apply_set u) t).
Proof.
  intros N [Hu Hp]. split.
  - unfold unique_ids. now rewrite (ids_on_id lid (apply_set u) t (fun r => eq_refl)).
  - now apply disponivel_present_on_id.
Qed.

(** [init_db] leaves the table as it is or appends the two rows. *)
Lemma init_db_table (t : table) :
  init_db t = t \/
  init_db t =
    with_new "Clean Code" "R. Martin" 2008 true
      (with_new "Estruturas de Dados" "N. Wirth" 1976 true t).
Proof.
  unfold init_db. destruct (Z.of_nat (List.length t) =? 0)%Z; [right | left]; reflexivity.
Qed.

Lemma invariant_init_db (t : table) : invariant t -> invariant (init_db t).
Proof.
  intros H. destruct (init_db_table t) as [-> | ->]; [exact H|].
  now apply invariant_with_new, invariant_with_new.
Qed.

Lemma invariant_nil : invariant [].
Proof.
  split; [constructor | intros r []].
Qed.

Lemma invariant_criar_livro (body : json) (t : table) :
  invariant t -> invariant (fst (criar_livro body t)).
Proof.
  intros H. destruct (criar_livro_table body t) as [-> | [a [b [n [d ->]]]]];
    [exact H | now apply invariant_with_new].
Qed.

Lemma invariant_remover_livro (lid : Z) (t : table) :
  invariant t -> invariant (fst (remover_livro lid t)).
Proof.
  intros H. rewrite remover_livro_table. now apply invariant_without_id.
Qed.

Lemma invariant_atualizar_disponibilidade (lid : Z) (body : json) (t : table) :
  invariant t -> invariant (fst (atualizar_disponibilidade lid body t)).
Proof.
  intros H.
  destruct (atualizar_disponibilidade_table lid body t) as [-> | [u [N [_ ->]]]];
    [exact H | now apply invariant_on_id].
Qed.

Lemma invariant_editar (lid : Z) (body : json) (t : table) :
  invariant t -> invariant (fst (editar lid body t)).
Proof.
  intros H. destruct (editar_table lid body t) as [-> | [u [N [_ ->]]]];
    [exact H | now apply invariant_on_id].
Qed.

Lemma obter_livro_table (lid : Z) (t : table) : fst (obter_livro lid t) = t.
Proof.
  unfold obter_livro.
  destruct (Livro_select_id lid t) as [livro|e]; [|reflexivity].
  now destruct (nth_error livro 0).
Qed.

Lemma invariant_route (q : request) (t : table) :
  invariant t -> invariant (fst (route q t)).
Proof.
  intros H. destruct q as [|lid|body|lid|lid body| |lid body]; simpl.
  - exact H.
  - now rewrite obter_livro_table.
  - now apply invariant_criar_livro.
  - now apply invariant_remover_livro.
  - now apply invariant_atualizar_disponibilidade.
  - exact H.
  - now apply invariant_editar.
Qed.

End Routes.

(** ** The claims *)

(** C1.  The claim: for an id that matches no record, the get-book-by-id
    operation answers 404 and never ends in an unhandled lookup failure.
    The route does not do so: on the starting table and the id 3, which no
    row has, [livro[0]] raises [IndexError], which escapes the view, and the
    response is a 500. *)
Theorem obter_livro_inexistente :
  absent 3 seed /\
  obter_livro 3 seed = (seed, Raise IndexError) /\
  http_status (snd (obter_livro 3 seed)) = 500.
Proof.
  split; [|split; reflexivity].
  intros r [<- | [<- | []]]; discriminate.
Qed.

(** C2.  The claim: the list-available-books operation returns the array of
    the records whose flag is true.  The route builds that array and ends
    without returning it: for every table the view returns [None], the
    response is a 500, and the table is as before. *)
Theorem listar_livros_disponiveis_sem_retorno :
  forall t : table,
    listar_livros_disponiveis t = (t, Return RNone) /\
    http_status (snd (listar_livros_disponiveis t)) = 500.
Proof.
  intros t. split; reflexivity.
Qed.

(** The array the loop of [listar_livros_disponiveis] has built when the
    function ends: the items of the rows whose flag is true, in the shape of
    [listar_livros], as many as the rows of the table less those whose flag
    is not true. *)
Lemma lst_disponiveis_spec (t : table) :
  lst_disponiveis t = map item_livro (filter is_disponivel t) /\
  (forall j, In j (lst_disponiveis t) <->
             exists r, In r t /\ disponivel r = Some true /\ j = item_livro r) /\
  (List.length (lst_disponiveis t)
   + List.length (filter (fun r => negb (is_disponivel r)) t) = List.length t)%nat.
Proof.
  unfold lst_disponiveis, Livro_select_disponivel. split; [reflexivity|]. split.
  - intros j. rewrite in_map_iff. split.
    + intros [r [<- Hin]]. apply filter_In in Hin as [Hin Hd].
      exists r. repeat split; auto.
      unfold is_disponivel in Hd. now destruct (disponivel r) as [[|]|].
    + intros [r [Hin [Hd ->]]]. exists r. split; [reflexivity|].
      apply filter_In. split; [exact Hin|]. unfold is_disponivel. now rewrite Hd.
  - rewrite length_map.
    induction t as [|r t IH]; simpl; [reflexivity|].
    destruct (is_disponivel r); simpl; lia.
Qed.




(** C4.  The claim: an update-availability request whose payload lacks
    disponivel fails with a 400 and leaves the table unchanged.  The table is
    unchanged, but the route has no check of the field: [data['disponivel']]
    raises [KeyError], which escapes the view, and the response is a 500. *)
Theorem atualizar_disponibilidade_sem_disponivel :
  Py.contains "disponivel" corpo_sem_disponivel = Val false /\
  atualizar_disponibilidade 1 corpo_sem_disponivel seed = (seed, Raise KeyError) /\
  http_status (snd (atualizar_disponibilidade 1 corpo_sem_disponivel seed)) = 500.
Proof.
  repeat split; reflexivity.
Qed.

(** C5.  For every create payload that lacks one of titulo, autor and ano,
    the create operation fails with a 400 and the table is unchanged. *)
Theorem criar_livro_campo_ausente :
  forall (kvs : list (string * json)) (k : string) (t : table),
    In k obrig ->
    Py.lookup k kvs = None ->
    criar_livro (JObj kvs) t = (t, Abort 400 campos_obrigatorios) /\
    http_status (snd (criar_livro (JObj kvs) t)) = 400.
Proof.
  intros kvs k t Hk Hnone.
  assert (E : criar_livro (JObj kvs) t = (t, Abort 400 campos_obrigatorios)).
  { unfold criar_livro. rewrite or_dict_obj, all_in_obj.
    assert (F : forallb
                  (fun k0 => match Py.lookup k0 kvs with Some _ => true | None => false end)
                  obrig = false).
    { destruct (forallb _ obrig) eqn:F; [|reflexivity].
      rewrite forallb_forall in F. specialize (F k Hk). now rewrite Hnone in F. }
    now rewrite F. }
  split; [exact E | now rewrite E].
Qed.

Lemma criar_livro_campo_ausente_witness :
  criar_livro corpo_sem_ano seed = (seed, Abort 400 campos_obrigatorios) /\
  http_status (snd (criar_livro corpo_sem_ano seed)) = 400.
Proof.
  apply (criar_livro_campo_ausente
           [("titulo", JStr "Dom Casmurro"); ("autor", JStr "Machado de Assis")] "ano" seed).
  - simpl. auto.
  - reflexivity.
Defined.

(** C6 (amended).  For every id of the signed 64-bit range, the delete
    operation signals no error and returns its confirmation; the table
    afterwards holds the records of the table before whose id is not the
    given one, so that the matching record is removed, no other record is
    affected, and the table is unchanged when no record matches. *)
Theorem remover_livro_spec :
  forall (lid : Z) (t : table),
    in_int64 lid = true ->
    snd (remover_livro lid t) = Return (RText "Livro removido com sucesso!") /\
    http_status (snd (remover_livro lid t)) = 200 /\
    (forall r, In r (fst (remover_livro lid t)) <-> In r t /\ id r <> lid) /\
    (absent lid t -> fst (remover_livro lid t) = t) /\
    (forall lid', lid' <> lid ->
       rows_with_id lid' (fst (remover_livro lid t)) = rows_with_id lid' t).
Proof.
  intros lid t Hr.
  assert (E : remover_livro lid t =
              (without_id lid t, Return (RText "Livro removido com sucesso!"))).
  { unfold remover_livro, Livro_delete. now rewrite (bind_id_in_int64 lid t Hr). }
  rewrite E. split; [reflexivity|]. split; [reflexivity|].
  split; [intros r; apply In_without_id|].
  split; [apply without_id_absent|].
  intros lid' Hne. simpl. unfold without_id, rows_with_id.
  induction t as [|r t IH]; simpl; [reflexivity|].
  destruct (has_id lid r) eqn:E1; simpl.
  - assert (E' : has_id lid' r = false).
    { apply has_id_false. apply has_id_true in E1. congruence. }
    rewrite E'. apply IH.
    unfold remover_livro, Livro_delete. now rewrite (bind_id_in_int64 lid t Hr).
  - destruct (has_id lid' r); [f_equal|]; apply IH;
      unfold remover_livro, Livro_delete; now rewrite (bind_id_in_int64 lid t Hr).
Qed.

Lemma remover_livro_spec_witness :
  fst (remover_livro 7 seed) = seed /\
  remover_livro 1 seed =
    ([mkLivro 2 (Some "Clean Code") (Some "R. Martin") (Some 2008) (Some true)],
     Return (RText "Livro removido com sucesso!")).
Proof.
  split.
  - apply (proj1 (proj2 (proj2 (proj2 (remover_livro_spec 7 seed eq_refl))))).
    intros r [<- | [<- | []]]; discriminate.
  - destruct (remover_livro_spec 1 seed eq_refl) as [Hs _].
    rewrite (surjective_pairing (remover_livro 1 seed)), Hs. reflexivity.
Defined.

(** C6 as stated fails: the route takes every non-negative integer as id,
    and on one the engine cannot bind the DELETE raises [OverflowError],
    which escapes the view: the response is a 500. *)
Lemma remover_livro_id_grande :
  in_int64 id_grande = false /\
  remover_livro id_grande seed = (seed, Raise OverflowError) /\
  http_status (snd (remover_livro id_grande seed)) = 500.
Proof.
  repeat split; reflexivity.
Qed.

(** C7.  For every existing record id and every payload that contains
    disponivel, the update-availability operation changes nothing but the
    flag of the records with that id: every row keeps its place, its id,
    titulo, autor and ano, and a row with another id is unchanged.  When the
    supplied value is not null the flag becomes its truth value; when it is
    null the statement is refused and the table is as before. *)
Theorem atualizar_disponibilidade_frame :
  forall (lid : Z) (kvs : list (string * json)) (vd : json) (t : table),
    (exists r, In r t /\ id r = lid) ->
    Py.lookup "disponivel" kvs = Some vd ->
    Forall2 (same_but_disponivel lid) t (fst (atualizar_disponibilidade lid (JObj kvs) t)) /\
    (vd <> JNull ->
       atualizar_disponibilidade lid (JObj kvs) t =
         (on_id lid (with_disponivel (Py.truthy vd)) t,
          Return (RText "Livro atualizado com sucesso"))) /\
    (vd = JNull ->
       atualizar_disponibilidade lid (JObj kvs) t = (t, Raise IntegrityError)).
Proof.
  intros lid kvs vd t Hex Hd.
  assert (Hfound : existsb (has_id lid) t = true) by now apply existsb_has_id.
  assert (Hsome : vd <> JNull ->
            atualizar_disponibilidade lid (JObj kvs) t =
              (on_id lid (with_disponivel (Py.truthy vd)) t,
               Return (RText "Livro atualizado com sucesso"))).
  { intros Hnn. unfold atualizar_disponibilidade.
    rewrite or_dict_obj. unfold Py.getitem. rewrite Hd. simpl.
    rewrite (BooleanField_db_value_not_null vd Hnn). simpl.
    unfold Livro_update, bindable, ano_bindable, assigns_null, assigns_text. simpl.
    now rewrite Hfound, orb_true_r. }
  assert (Hnull : vd = JNull ->
            atualizar_disponibilidade lid (JObj kvs) t = (t, Raise IntegrityError)).
  { intros ->. unfold atualizar_disponibilidade.
    rewrite or_dict_obj. unfold Py.getitem. rewrite Hd. simpl.
    unfold Livro_update, bindable, ano_bindable, assigns_null. simpl.
    now rewrite Hfound, orb_true_r. }
  split; [|split; assumption].
  destruct vd; try (rewrite Hsome by discriminate; simpl;
    apply Forall2_on_id;
      [apply same_but_disponivel_refl | intros r; apply same_but_disponivel_with]).
  rewrite Hnull by reflexivity. simpl.
  apply Forall2_same, same_but_disponivel_refl.
Qed.

Lemma atualizar_disponibilidade_frame_witness :
  atualizar_disponibilidade 2 corpo_disponivel seed =
    ([mkLivro 1 (Some "Estruturas de Dados") (Some "N. Wirth") (Some 1976) (Some true);
      mkLivro 2 (Some "Clean Code") (Some "R. Martin") (Some 2008) (Some false)],
     Return (RText "Livro atualizado com sucesso")).
Proof.
  apply (proj1 (proj2 (atualizar_disponibilidade_frame
                         2 [("disponivel", JBool false)] (JBool false) seed
                         (ex_intro _ (mkLivro 2 (Some "Clean Code") (Some "R. Martin")
                                              (Some 2008) (Some true))
                                   (conj (or_intror (or_introl eq_refl)) eq_refl))
                         eq_refl))).
  discriminate.
Defined.




(** C9.  In every reachable table no two records share an id and every
    record has its available flag (it is never null); create, delete,
    update-availability and full edit, on any body and id, preserve both
    properties from any table that has them. *)
Theorem invariant_reachable :
  (forall t : table, reachable t -> unique_ids t /\ disponivel_present t) /\
  (forall t : table,
      unique_ids t /\ disponivel_present t ->
      (forall body, invariant (fst (criar_livro body t))) /\
      (forall lid, invariant (fst (remover_livro lid t))) /\
      (forall lid body, invariant (fst (atualizar_disponibilidade lid body t))) /\
      (forall lid body, invariant (fst (editar lid body t)))).
Proof.
  split.
  - intros t Hr. change (invariant t).
    induction Hr as [|t _ IH|t q _ IH].
    + apply invariant_init_db, invariant_nil.
    + now apply invariant_init_db.
    + now apply invariant_route.
  - intros t H. change (invariant t) in H.
    split; [|split; [|split]]; intros.
    + now apply invariant_criar_livro.
    + now apply invariant_remover_livro.
    + now apply invariant_atualizar_disponibilidade.
    + now apply invariant_editar.
Qed.

Lemma invariant_reachable_witness :
  invariant (fst (editar 1 corpo_editar (fst (criar_livro corpo_livro seed)))).
Proof.
  apply (proj2 invariant_reachable (fst (criar_livro corpo_livro seed))).
  apply (proj1 invariant_reachable).
  apply (reach_request seed (POST_livros corpo_livro)).
  apply reach_start.
Defined.




(** ** Further properties of the routes *)

Section Selection.

Lemma absent_not_in_ids (lid : Z) (t : table) : ~ In lid (ids t) <-> absent lid t.
Proof.
  unfold absent, ids. rewrite in_map_iff. split.
  - intros H r Hin Hid. apply H. now exists r.
  - intros H [r [Hid Hin]]. now apply (H r Hin).
Qed.

Lemma absent_next_id (t : table) : absent (next_id t) t.
Proof. apply absent_not_in_ids, next_id_fresh. Qed.

(** With distinct keys, the rows with the key of a row are that row alone. *)
Lemma rows_with_id_unique (t : table) (r : Livro) :
  unique_ids t -> In r t -> rows_with_id (id r) t = [r].
Proof.
  unfold unique_ids, rows_with_id.
  induction t as [|a t IH]; simpl; intros Hnd Hin; [contradiction|].
  inversion Hnd as [|x l Hx Hl]; subst.
  destruct Hin as [-> | Hin].
  - assert (E : has_id (id r) r = true) by now apply has_id_true.
    rewrite E. f_equal.
    apply rows_with_id_absent, absent_not_in_ids, Hx.
  - assert (E : has_id (id r) a = false).
    { apply has_id_false. intros Heq. apply Hx. rewrite Heq.
      unfold ids. now apply in_map. }
    rewrite E. now apply IH.
Qed.


Lemma without_id_with_new (a b : string) (n : Z) (d : bool) (t : table) :
  without_id (next_id t) (with_new a b n d t) = t.
Proof.
  unfold with_new, without_id at 1. rewrite filter_app.
  fold (without_id (next_id t) t).
  rewrite (without_id_absent _ _ (absent_next_id t)). simpl.
  unfold has_id. simpl. rewrite Z.eqb_refl. simpl. apply app_nil_r.
Qed.


End Selection.

(** X1.  [init_db] seeds an empty table only: it leaves a table that has
    rows as it is, its result always has rows, and running it again changes
    nothing. *)
Theorem init_db_idempotent :
  forall t : table,
    init_db (init_db t) = init_db t /\
    init_db t <> [] /\
    (t <> [] -> init_db t = t).
Proof.
  intros [|r t].
  - split; [reflexivity|]. split; [discriminate|]. intros H. now elim H.
  - repeat split; discriminate.
Qed.



(** X3.  In a table without repeated ids, [obter_livro] on the id of a
    record answers 200 with the titulo, autor and ano of that record and
    nothing else (neither its id nor its flag), and leaves the table as it
    is. *)
Theorem obter_livro_found :
  forall (t : table) (r : Livro),
    unique_ids t ->
    In r t ->
    obter_livro (id r) t = (t, Return (RJson (item_obter r))) /\
    http_status (snd (obter_livro (id r) t)) = 200 /\
    Py.contains "id" (item_obter r) = Val false /\
    Py.contains "disponivel" (item_obter r) = Val false.
Proof.
  intros t r Hu Hin.
  assert (E : obter_livro (id r) t = (t, Return (RJson (item_obter r)))).
  { unfold obter_livro, Livro_select_id.
    rewrite (bind_id_found (id r) t) by (exists r; auto). simpl.
    now rewrite (rows_with_id_unique t r Hu Hin). }
  rewrite E. repeat split; reflexivity.
Qed.

Lemma obter_livro_found_witness :
  obter_livro 2 seed =
    (seed, Return (RJson (JObj [("titulo", JStr "Clean Code"); ("autor", JStr "R. Martin");
                                ("ano", JInt 2008)]))).
Proof.
  refine (proj1 (obter_livro_found seed
                   (mkLivro 2 (Some "Clean Code") (Some "R. Martin") (Some 2008) (Some true))
                   _ _)).
  - repeat constructor; simpl; intuition discriminate.
  - right. left. reflexivity.
Defined.



(** X5.  Create then delete: deleting the id given to a record that was just
    created gives back the table as it was before the create, whatever the
    body of the create. *)
Theorem remover_livro_after_criar :
  forall (body : json) (t : table),
    fst (remover_livro (next_id t) (fst (criar_livro body t))) = t.
Proof.
  intros body t. rewrite remover_livro_table.
  destruct (criar_livro_table body t) as [-> | [a [b [n [d ->]]]]].
  - apply without_id_absent, absent_next_id.
  - apply without_id_with_new.
Qed.

(** X6.  Deleting twice leaves the table as deleting once, and after a
    delete no record has the id: [obter_livro] on it ends in [IndexError],
    or in [OverflowError] when the id is outside the signed 64-bit range. *)
Theorem remover_livro_idempotent :
  forall (lid : Z) (t : table),
    fst (remover_livro lid (fst (remover_livro lid t))) = fst (remover_livro lid t) /\
    absent lid (fst (remover_livro lid t)) /\
    snd (obter_livro lid (fst (remover_livro lid t))) =
      Raise (if in_int64 lid then IndexError else OverflowError).
Proof.
  intros lid t. rewrite !remover_livro_table.
  pose proof (absent_without_id lid t) as Habs.
  split; [now apply without_id_absent|]. split; [exact Habs|].
  now rewrite (obter_livro_absent lid _ Habs).
Qed.

(** X7.  On an id of the signed 64-bit range that no record has,
    [atualizar_disponibilidade] with a payload that contains disponivel
    (null included) changes nothing and still answers 200 with its
    confirmation: the route has no 404. *)
Theorem atualizar_disponibilidade_absent :
  forall (lid : Z) (kvs : list (string * json)) (vd : json) (t : table),
    absent lid t ->
    in_int64 lid = true ->
    Py.lookup "disponivel" kvs = Some vd ->
    atualizar_disponibilidade lid (JObj kvs) t =
      (t, Return (RText "Livro atualizado com sucesso")) /\
    http_status (snd (atualizar_disponibilidade lid (JObj kvs) t)) = 200.
Proof.
  intros lid kvs vd t Habs Hr Hd.
  apply existsb_has_id_absent in Habs.
  assert (E : atualizar_disponibilidade lid (JObj kvs) t =
              (t, Return (RText "Livro atualizado com sucesso"))).
  { unfold atualizar_disponibilidade.
    rewrite or_dict_obj. unfold Py.getitem. rewrite Hd. simpl.
    destruct vd; simpl; unfold Livro_update, bindable, ano_bindable; simpl;
      now rewrite Hr, Habs. }
  now rewrite E.
Qed.

Lemma atualizar_disponibilidade_absent_witness :
  atualizar_disponibilidade 7 corpo_disponivel seed =
    (seed, Return (RText "Livro atualizado com sucesso")).
Proof.
  refine (proj1 (atualizar_disponibilidade_absent 7 [("disponivel", JBool false)]
                   (JBool false) seed _ eq_refl eq_refl)).
  intros r [<- | [<- | []]]; discriminate.
Defined.

Section Updates.





(** The exceptions of [int] other than [ValueError] escape the field. *)
Lemma IntegerField_db_value_error (v : json) (e : pyexc) :
  v <> JNull -> e <> ValueError -> Py.int v = Exc e -> IntegerField_db_value v = Exc e.
Proof.
  intros Hn He H. destruct v; try (now elim Hn);
    unfold IntegerField_db_value; rewrite H; try reflexivity;
    destruct e; try reflexivity; now elim He.
Qed.


Lemma assign_idempotent {A : Type} (new : option (option A)) (old : option A) :
  assign new (assign new old) = assign new old.
Proof. now destruct new. Qed.

Lemma apply_set_idempotent (u : assignments) (r : Livro) :
  apply_set u (apply_set u r) = apply_set u r.
Proof.
  unfold apply_set. simpl. now rewrite !assign_idempotent.
Qed.

Lemma on_id_idempotent (lid : Z) (f : Livro -> Livro) (t : table) :
  (forall r, id (f r) = id r) -> (forall r, f (f r) = f r) ->
  on_id lid f (on_id lid f t) = on_id lid f t.
Proof.
  intros Hid Hf. unfold on_id. rewrite map_map. apply map_ext.
  intros r. destruct (has_id lid r) eqn:E; [|now rewrite E].
  unfold has_id in *. now rewrite Hid, E, Hf.
Qed.

Lemma existsb_has_id_on_id (lid : Z) (f : Livro -> Livro) (t : table) :
  (forall r, id (f r) = id r) ->
  existsb (has_id lid) (on_id lid f t) = existsb (has_id lid) t.
Proof.
  intros Hid. unfold on_id.
  induction t as [|r t IH]; simpl; [reflexivity|].
  rewrite IH. f_equal.
  destruct (has_id lid r) eqn:E; [|exact E].
  unfold has_id in *. now rewrite Hid.
Qed.

(** An UPDATE that wrote goes through again and writes the same rows. *)
Lemma Livro_update_idempotent (u : assignments) (lid : Z) (t t' : table) :
  Livro_update u lid t = Val (Written t') -> Livro_update u lid t' = Val (Written t').
Proof.
  intros H.
  destruct (Livro_update_cases u lid t)
    as [[E _] | [[E _] | [[E _] | [[E _] | [E [Ha [N [T Hex]]]]]]]];
    rewrite E in H; try discriminate.
  - injection H as <-. exact E.
  - injection H as <-.
    apply existsb_has_id in Hex.
    unfold Livro_update, bindable.
    rewrite (existsb_has_id_on_id lid (apply_set u) t (fun r => eq_refl)).
    rewrite Hex, Ha, N, T, orb_true_r. simpl.
    now rewrite (on_id_idempotent lid (apply_set u) t (fun r => eq_refl)
                   (apply_set_idempotent u)).
Qed.

End Updates.



(** X9.  [editar] does not check its payload: a body that lacks one of
    disponivel, autor, titulo and ano ends in [KeyError], a 500, for every
    id, and the table is unchanged. *)
Theorem editar_campo_ausente :
  forall (lid : Z) (kvs : list (string * json)) (k : string) (t : table),
    In k campos_editar ->
    Py.lookup k kvs = None ->
    editar lid (JObj kvs) t = (t, Raise KeyError) /\
    http_status (snd (editar lid (JObj kvs) t)) = 500.
Proof.
  intros lid kvs k t Hk Hnone.
  assert (E : editar lid (JObj kvs) t = (t, Raise KeyError)).
  { unfold editar. rewrite or_dict_obj. unfold Py.getitem.
    destruct (Py.lookup "disponivel" kvs) as [vd|] eqn:Ed; simpl; [|reflexivity].
    destruct (Py.lookup "autor" kvs) as [va|] eqn:Ea; simpl; [|reflexivity].
    destruct (Py.lookup "titulo" kvs) as [vt|] eqn:Et; simpl; [|reflexivity].
    destruct (Py.lookup "ano" kvs) as [vn|] eqn:En; simpl; [|reflexivity].
    simpl in Hk. destruct Hk as [<- | [<- | [<- | [<- | []]]]]; congruence. }
  now rewrite E.
Qed.

Lemma editar_campo_ausente_witness :
  editar 1 corpo_disponivel seed = (seed, Raise KeyError).
Proof.
  refine (proj1 (editar_campo_ausente 1 [("disponivel", JBool false)] "autor" seed _ eq_refl)).
  simpl. auto.
Defined.

(** X10.  A create body that is not a JSON object never inserts a record.
    A body that is false as a Python value (null, false, 0, an empty text,
    array or object) is taken as an empty object and answered 400; any other
    body that is not an object is answered 400, or ends in [TypeError] when
    the test of the required fields cannot be made or passes by accident
    (an array or a text that holds the three names). *)
Theorem criar_livro_not_object :
  forall (body : json) (t : table),
    (Py.truthy body = false -> criar_livro body t = (t, Abort 400 campos_obrigatorios)) /\
    (is_obj body = false ->
       fst (criar_livro body t) = t /\
       (snd (criar_livro body t) = Abort 400 campos_obrigatorios \/
        snd (criar_livro body t) = Raise TypeError)).
Proof.
  intros body t. split.
  - intros Hf. unfold criar_livro, Py.or_dict. now rewrite Hf.
  - intros Hobj. unfold criar_livro, Py.or_dict.
    destruct (Py.truthy body) eqn:Ht; [|simpl; auto].
    destruct body as [|b|n|f|s|xs|kvs]; try discriminate; simpl; auto.
    + destruct (Py.is_substring "titulo" s); simpl; auto.
      destruct (Py.is_substring "autor" s); simpl; auto.
      destruct (Py.is_substring "ano" s); simpl; auto.
    + destruct (existsb _ xs); simpl; auto.
      destruct (existsb _ xs); simpl; auto.
      destruct (existsb _ xs); simpl; auto.
Qed.

(** X11.  Sending the same update of the availability twice leaves the
    table as sending it once, for every id and body. *)
Theorem atualizar_disponibilidade_idempotent :
  forall (lid : Z) (body : json) (t : table),
    fst (atualizar_disponibilidade lid body
           (fst (atualizar_disponibilidade lid body t))) =
    fst (atualizar_disponibilidade lid body t).
Proof.
  intros lid body t. unfold atualizar_disponibilidade.
  generalize (Py.or_dict body). intros data.
  destruct (Py.getitem data "disponivel") as [vd|e]; cbn [bind fst]; auto.
  destruct (BooleanField_db_value vd) as [d|e]; cbn [bind fst]; auto.
  destruct (Livro_update _ lid t) as [[t'|]|e] eqn:E; cbn [fst].
  - now rewrite (Livro_update_idempotent _ lid t t' E).
  - now rewrite E.
  - now rewrite E.
Qed.

(** X12.  Sending the same full edit twice leaves the table as sending it
    once, for every id and body. *)
Theorem editar_idempotent :
  forall (lid : Z) (body : json) (t : table),
    fst (editar lid body (fst (editar lid body t))) = fst (editar lid body t).
Proof.
  intros lid body t. unfold editar.
  generalize (Py.or_dict body). intros data.
  destruct (Py.getitem data "disponivel") as [vd|e]; cbn [bind fst]; auto.
  destruct (Py.getitem data "autor") as [va|e]; cbn [bind fst]; auto.
  destruct (Py.getitem data "titulo") as [vt|e]; cbn [bind fst]; auto.
  destruct (Py.getitem data "ano") as [vn|e]; cbn [bind fst]; auto.
  destruct (CharField_db_value vt) as [ct|e]; cbn [bind fst]; auto.
  destruct (CharField_db_value va) as [ca|e]; cbn [bind fst]; auto.
  destruct (IntegerField_db_value vn) as [cn|e]; cbn [bind fst]; auto.
  destruct (BooleanField_db_value vd) as [cd|e]; cbn [bind fst]; auto.
  destruct (Livro_update _ lid t) as [[t'|]|e] eqn:E; cbn [fst].
  - now rewrite (Livro_update_idempotent _ lid t t' E).
  - now rewrite E.
  - now rewrite E.
Qed.





(** X15.  In [criar_livro], a payload with the required fields whose ano
    [int] does not convert ends in the exception [int] raises, a 500, and
    writes nothing.  In [editar] the field catches [ValueError] only: an ano
    on which [int] raises another exception (an array, an object, an
    infinite float) ends in that exception for every id, whether a record
    has it or not, and writes nothing. *)
Theorem ano_not_converted :
  forall (kvs : list (string * json)) (vt va vn : json) (e : pyexc) (t : table),
    Py.lookup "titulo" kvs = Some vt ->
    Py.lookup "autor" kvs = Some va ->
    Py.lookup "ano" kvs = Some vn ->
    Py.int vn = Exc e ->
    (criar_livro (JObj kvs) t = (t, Raise e) /\
     http_status (snd (criar_livro (JObj kvs) t)) = 500) /\
    (forall (lid : Z) (vd : json),
        Py.lookup "disponivel" kvs = Some vd ->
        vn <> JNull ->
        e <> ValueError ->
        editar lid (JObj kvs) t = (t, Raise e)).
Proof.
  intros kvs vt va vn e t Ht Ha Hn Hint. split.
  - rewrite (criar_livro_int_error kvs vt va vn e t Ht Ha Hn Hint). now split.
  - intros lid vd Hd Nn Ne.
    unfold editar. rewrite or_dict_obj. unfold Py.getitem.
    rewrite Hd, Ha, Ht, Hn. simpl.
    rewrite (IntegerField_db_value_error vn e Nn Ne Hint).
    destruct vt, va; reflexivity.
Qed.

Lemma ano_not_converted_witness :
  criar_livro corpo_ano_texto seed = (seed, Raise ValueError) /\
  editar 1 corpo_editar_lista seed = (seed, Raise TypeError).
Proof.
  split.
  - exact (proj1 (proj1 (ano_not_converted
                    [("titulo", JStr "Dom Casmurro"); ("autor", JStr "Machado de Assis");
                     ("ano", JStr "mil oitocentos")]
                    (JStr "Dom Casmurro") (JStr "Machado de Assis") (JStr "mil oitocentos")
                    ValueError seed eq_refl eq_refl eq_refl eq_refl))).
  - refine (proj2 (ano_not_converted
                     [("titulo", JStr "Codigo Limpo"); ("autor", JStr "Robert Martin");
                      ("ano", JArr []); ("disponivel", JBool false)]
                     (JStr "Codigo Limpo") (JStr "Robert Martin") (JArr [])
                     TypeError seed eq_refl eq_refl eq_refl eq_refl)
                  1 (JBool false) eq_refl _ _); discriminate.
Defined.

(** ** Numerals *)

Section Numerals.


















End Numerals.

(** ** Trimming *)

Section Trimming.









End Trimming.

(** ** Invariants of the reachable tables *)

Section Reachable.

Lemma cells_present_with_new (a b : string) (n : Z) (d : bool) (t : table) :
  cells_present t -> cells_present (with_new a b n d t).
Proof.
  unfold cells_present, with_new. intros H r Hin.
  apply in_app_iff in Hin as [Hin | [<- | []]]; [now apply H|].
  simpl. repeat split; discriminate.
Qed.

Lemma cells_present_without_id (lid : Z) (t : table) :
  cells_present t -> cells_present (without_id lid t).
Proof.
  unfold cells_present. intros H r Hin. apply In_without_id in Hin. now apply H.
Qed.

Lemma assign_present {A : Type} (new : option (option A)) (old : option A) :
  is_null new = false -> old <> None -> assign new old <> None.
Proof.
  destruct new as [[a|]|]; simpl; intros Hn Ho; [discriminate | discriminate | exact Ho].
Qed.

Lemma cells_present_on_id (u : assignments) (lid : Z) (t : table) :
  assigns_null u = false -> assigns_text u = false ->
  cells_present t -> cells_present (on_id lid (apply_set u) t).
Proof.
  intros Hnull Htext Hp. unfold cells_present, on_id. intros r Hin.
  apply in_map_iff in Hin as [r0 [<- Hin0]].
  destruct (has_id lid r0); [|now apply Hp].
  unfold assigns_null in Hnull.
  apply orb_false_iff in Hnull as [Hnull Hd].
  apply orb_false_iff in Hnull as [Hnull Hn].
  apply orb_false_iff in Hnull as [Ht Ha].
  destruct (Hp r0 Hin0) as [Pt [Pa [Pn Pd]]].
  simpl. repeat split; try (now apply assign_present).
  unfold assigns_text in Htext.
  destruct (set_ano u) as [[[n|s]|]|]; simpl; try discriminate. exact Pn.
Qed.

Lemma cells_present_init_db (t : table) : cells_present t -> cells_present (init_db t).
Proof.
  intros H. destruct (init_db_table t) as [-> | ->]; [exact H|].
  now apply cells_present_with_new, cells_present_with_new.
Qed.

Lemma cells_present_route (q : request) (t : table) :
  cells_present t -> cells_present (fst (route q t)).
Proof.
  intros H. destruct q as [|lid|body|lid|lid body| |lid body]; simpl.
  - exact H.
  - now rewrite obter_livro_table.
  - destruct (criar_livro_table body t) as [-> | [a [b [n [d ->]]]]];
      [exact H | now apply cells_present_with_new].
  - rewrite remover_livro_table. now apply cells_present_without_id.
  - destruct (atualizar_disponibilidade_table lid body t) as [-> | [u [N [T ->]]]];
      [exact H | now apply cells_present_on_id].
  - exact H.
  - destruct (editar_table lid body t) as [-> | [u [N [T ->]]]];
      [exact H | now apply cells_present_on_id].
Qed.

Lemma next_id_above (t : table) : Forall (fun x => x < next_id t) (ids t).
Proof.
  apply Forall_forall. intros x Hin. unfold ids in Hin.
  apply in_map_iff in Hin as [r [<- Hr]].
  destruct (max_id_upper t r Hr) as [m [Hm Hle]].
  unfold next_id. rewrite Hm. lia.
Qed.

Lemma next_id_positive (t : table) :
  Forall (fun x => 1 <= x) (ids t) -> 1 <= next_id t.
Proof.
  intros H. destruct t as [|r t]; [unfold next_id; simpl; lia|].
  pose proof (next_id_above (r :: t)) as Ha.
  inversion H; inversion Ha; subst. lia.
Qed.

Lemma StronglySorted_snoc (l : list Z) (x : Z) :
  StronglySorted Z.lt l -> Forall (fun y => y < x) l -> StronglySorted Z.lt (l ++ [x])%list.
Proof.
  induction l as [|a l IH]; simpl; intros Hs Hx.
  - constructor; constructor.
  - apply StronglySorted_inv in Hs as [Hs Ha].
    inversion Hx; subst.
    constructor; [now apply IH|].
    apply Forall_app. split; [exact Ha | now constructor].
Qed.

Lemma increasing_ids_with_new (a b : string) (n : Z) (d : bool) (t : table) :
  increasing_ids t -> increasing_ids (with_new a b n d t).
Proof.
  unfold increasing_ids. intros [Hs Hp]. rewrite ids_with_new. split.
  - apply StronglySorted_snoc; [exact Hs | apply next_id_above].
  - apply Forall_app. split; [exact Hp|].
    constructor; [now apply next_id_positive | constructor].
Qed.

Lemma increasing_ids_without_id (lid : Z) (t : table) :
  increasing_ids t -> increasing_ids (without_id lid t).
Proof.
  unfold increasing_ids. intros [Hs Hp]. split.
  - induction t as [|r t IH]; [exact Hs|].
    change (without_id lid (r :: t))
      with (if negb (has_id lid r) then r :: without_id lid t else without_id lid t).
    simpl in Hs, Hp. apply StronglySorted_inv in Hs as [Hs Hr].
    inversion Hp; subst.
    destruct (negb (has_id lid r)); [|now apply IH].
    simpl. constructor; [now apply IH|].
    apply Forall_forall. intros x Hin.
    apply ids_without_id_incl in Hin.
    rewrite Forall_forall in Hr. now apply Hr.
  - apply Forall_forall. intros x Hin.
    apply ids_without_id_incl in Hin.
    rewrite Forall_forall in Hp. now apply Hp.
Qed.

Lemma increasing_ids_on_id (u : assignments) (lid : Z) (t : table) :
  increasing_ids t -> increasing_ids (on_id lid (apply_set u) t).
Proof.
  unfold increasing_ids. now rewrite (ids_on_id lid (apply_set u) t (fun r => eq_refl)).
Qed.

Lemma increasing_ids_init_db (t : table) : increasing_ids t -> increasing_ids (init_db t).
Proof.
  intros H. destruct (init_db_table t) as [-> | ->]; [exact H|].
  now apply increasing_ids_with_new, increasing_ids_with_new.
Qed.

Lemma increasing_ids_route (q : request) (t : table) :
  increasing_ids t -> increasing_ids (fst (route q t)).
Proof.
  intros H. destruct q as [|lid|body|lid|lid body| |lid body]; simpl.
  - exact H.
  - now rewrite obter_livro_table.
  - destruct (criar_livro_table body t) as [-> | [a [b [n [d ->]]]]];
      [exact H | now apply increasing_ids_with_new].
  - rewrite remover_livro_table. now apply increasing_ids_without_id.
  - destruct (atualizar_disponibilidade_table lid body t) as [-> | [u [_ [_ ->]]]];
      [exact H | now apply increasing_ids_on_id].
  - exact H.
  - destruct (editar_table lid body t) as [-> | [u [_ [_ ->]]]];
      [exact H | now apply increasing_ids_on_id].
Qed.

End Reachable.

(** X16.  In every reachable table every record has all its cells: titulo,
    autor, ano and the flag are never null; every request keeps it so from
    any table where it holds. *)
Theorem cells_present_reachable :
  (forall t : table, reachable t -> cells_present t) /\
  (forall (q : request) (t : table), cells_present t -> cells_present (fst (route q t))).
Proof.
  split; [|exact cells_present_route].
  intros t Hr. induction Hr as [|t _ IH|t q _ IH].
  - apply cells_present_init_db. intros r [].
  - now apply cells_present_init_db.
  - now apply cells_present_route.
Qed.

Lemma cells_present_reachable_witness :
  cells_present (fst (route (PATCH_editar 1 corpo_editar_nulo)
                            (fst (route (POST_livros corpo_livro) seed)))).
Proof.
  apply (proj2 cells_present_reachable).
  apply (proj1 cells_present_reachable).
  apply (reach_request seed (POST_livros corpo_livro)), reach_start.
Defined.

(** X17.  In every reachable table the ids are positive and strictly
    increasing in retrieval order, which is the order of the items of
    [listar_livros]; every request keeps it so from any table where it
    holds. *)
Theorem increasing_ids_reachable :
  (forall t : table, reachable t -> increasing_ids t) /\
  (forall (q : request) (t : table), increasing_ids t -> increasing_ids (fst (route q t))).
Proof.
  split; [|exact increasing_ids_route].
  intros t Hr. induction Hr as [|t _ IH|t q _ IH].
  - apply increasing_ids_init_db. split; constructor.
  - now apply increasing_ids_init_db.
  - now apply increasing_ids_route.
Qed.

Lemma increasing_ids_reachable_witness :
  increasing_ids (fst (route (DELETE_livro 1) (fst (route (POST_livros corpo_livro) seed)))).
Proof.
  apply (proj2 increasing_ids_reachable).
  apply (proj1 increasing_ids_reachable).
  apply (reach_request seed (POST_livros corpo_livro)), reach_start.
Defined.





(** X20.  Whatever the state of the connection before a request, the view
    runs with the connection open and the connection is closed afterwards,
    also when the view raises; so it is closed after [init_db] and after any
    sequence of requests that follows. *)
Theorem connection_closed :
  (forall (q : request) (s : conn * table),
      snd (fst (serve q s)) = Open /\ fst (fst (fst (serve q s))) = Closed /\
      snd (fst (fst (serve q s))) = fst (route q (snd s))) /\
  (forall (qs : list request) (s : conn * table),
      fst (serve_all qs (init_db_conn s)) = Closed).
Proof.
  assert (Hserve : forall q s,
            snd (fst (serve q s)) = Open /\ fst (fst (fst (serve q s))) = Closed /\
            snd (fst (fst (serve q s))) = fst (route q (snd s))).
  { intros q [[|] t]; repeat split; reflexivity. }
  split; [exact Hserve|].
  intros qs s.
  assert (Hgen : forall s', fst s' = Closed -> fst (serve_all qs s') = Closed).
  { induction qs as [|q qs IH]; intros s' Hs'; [exact Hs'|].
    simpl. apply IH. now destruct (Hserve q s') as [_ [H _]]. }
  now apply Hgen.
Qed.

(** X21.  [criar_livro] reads titulo, autor and ano and nothing else: two
    object bodies that agree on these three keys (whatever their disponivel
    and their other keys) get the same answer and the same table. *)
Theorem criar_livro_reads_three :
  forall (kvs kvs' : list (string * json)) (t : table),
    Py.lookup "titulo" kvs = Py.lookup "titulo" kvs' ->
    Py.lookup "autor" kvs = Py.lookup "autor" kvs' ->
    Py.lookup "ano" kvs = Py.lookup "ano" kvs' ->
    criar_livro (JObj kvs) t = criar_livro (JObj kvs') t.
Proof.
  intros kvs kvs' t Ht Ha Hn. unfold criar_livro.
  rewrite !or_dict_obj, !all_in_obj. unfold obrig, Py.getitem. simpl forallb.
  now rewrite Ht, Ha, Hn.
Qed.

Lemma criar_livro_reads_three_witness :
  criar_livro corpo_livro seed =
  criar_livro (JObj [("ano", JInt 1899); ("autor", JStr "Machado de Assis");
                     ("titulo", JStr "  Dom Casmurro "); ("disponivel", JNull);
                     ("editora", JStr "Garnier")]) seed.
Proof.
  exact (criar_livro_reads_three
           [("titulo", JStr "  Dom Casmurro "); ("autor", JStr "Machado de Assis");
            ("ano", JInt 1899); ("disponivel", JBool false)]
           [("ano", JInt 1899); ("autor", JStr "Machado de Assis");
            ("titulo", JStr "  Dom Casmurro "); ("disponivel", JNull);
            ("editora", JStr "Garnier")] seed eq_refl eq_refl eq_refl).
Defined.


